(** * freelan/endpoint.hpp: endpoint resolution

    A shallow embedding of [freelan::ip_endpoint] and of the resolution
    contract of [freelan::endpoint], with the properties of the endpoint
    resolution specification stated over it.

    The member functions are written in a small state-and-exception monad:
    the state holds the object the member function is called on ([*this]),
    what the resolver has been asked and has outstanding, and the state of
    the caller that the completion handler works on; an exception thrown by
    the C++ code is the [Raised] outcome. *)

From Stdlib Require Import NArith PeanoNat List String Ascii Bool Lia.
From Stdlib.Strings Require Import Byte.
From Stdlib Require Import DecimalString.
From Stdlib Require HexadecimalString DecimalPos DecimalN.
Import ListNotations.
Local Open Scope string_scope.
Local Open Scope N_scope.

Set Implicit Arguments.

(** ** Values of Boost.Asio *)

(** [uint16_t], the [base_port_type] of [ip_endpoint]. *)
Definition uint16_t := N.

Definition is_uint16 (n : N) : Prop := n < 65536.

(** [boost::asio::ip::address_v4]: four bytes in network order. *)
Record address_v4 := make_address_v4 { v4_bytes : byte * byte * byte * byte }.

(** [boost::asio::ip::address_v6]: sixteen bytes and a scope id. *)
Record address_v6 := make_address_v6 { v6_bytes : list byte; v6_scope_id : N }.

(** [boost::asio::ip::address]: either family. *)
Inductive address :=
| from_v4 (a : address_v4)
| from_v6 (a : address_v6).

(** [AddressType], the template parameter of [ip_endpoint]: a type that
    converts to [address], as [ep_type(m_address, port)] requires. *)
Class AddressType (A : Type) := { to_address : A -> address }.

#[export] Instance address_v4_AddressType : AddressType address_v4 :=
  { to_address := from_v4 }.
#[export] Instance address_v6_AddressType : AddressType address_v6 :=
  { to_address := from_v6 }.

(** [endpoint::ep_type], that is [boost::asio::ip::udp::endpoint]. *)
Record ep_type := make_ep { ep_address : address; ep_port : uint16_t }.

(** [endpoint::protocol_type]: [udp::v4()] or [udp::v6()]. *)
Inductive protocol_type := udp_v4 | udp_v6.

(** [endpoint::flags_type]: a bit mask. *)
Definition flags_type := N.

(** [endpoint::base_service_type]. *)
Definition base_service_type := string.

(** [boost::system::error_code], by its value; the default-constructed one
    has value 0 and means success. *)
Definition error_code := N.
Definition error_code_default : error_code := 0.
Definition is_success (ec : error_code) : bool := ec =? 0.

(** An entry of a resolver result, [basic_resolver_entry]. *)
Record resolver_entry := make_entry
  { entry_endpoint : ep_type;
    entry_host_name : string;
    entry_service_name : string }.

(** [udp::resolver::iterator]: the sequence of entries it walks through;
    the end iterator is the empty sequence. *)
Definition resolver_iterator := list resolver_entry.

(** [resolver::iterator::create(ep, host, service)]. *)
Definition iterator_create (ep : ep_type) (host service : string)
  : resolver_iterator :=
  [make_entry ep host service].

(** [udp::resolver::query]. *)
Record resolver_query := make_query
  { query_protocol : protocol_type;
    query_host : string;
    query_service : string;
    query_flags : flags_type }.

(** ** Failures and outcomes *)

(** What a resolution can fail with.  [bad_lexical_cast] is the exception
    of [boost::lexical_cast]; the two others belong to the hostname
    endpoint. *)
Inductive failure :=
| bad_lexical_cast
| EmptyResult
| ResolutionFailure (ec : error_code).

(** The name the specification gives to a default service that does not
    convert to a port. *)
Definition InvalidServiceFormat : failure := bad_lexical_cast.

Inductive outcome (A : Type) :=
| Returned (a : A)
| Raised (f : failure).
Arguments Returned {A} a.
Arguments Raised {A} f.

(** ** Conversions of [boost::lexical_cast] *)

(** [boost::lexical_cast<std::string>(port)] for a [uint16_t]: its decimal
    digits. *)
Definition lexical_cast_string (port : uint16_t) : string :=
  NilZero.string_of_uint (N.to_uint port).

(** The specification's words for the conversion of the default service,
    to be compared with what the program does: a base-10 unsigned 16-bit
    integer, that is one decimal digit or more, of a value below 65536.
    The conversion of the program is [lexical_cast_uint16_boost] below. *)
Definition decimal_uint16 (s : string) : option uint16_t :=
  match NilZero.uint_of_string s with
  | Some d => let n := N.of_uint d in if n <? 65536 then Some n else None
  | None => None
  end.

(** [address_v4::to_string]: dotted decimal. *)
Definition byte_to_string (b : byte) : string :=
  NilZero.string_of_uint (N.to_uint (Byte.to_N b)).

Definition address_v4_to_string (a : address_v4) : string :=
  let '(b0, b1, b2, b3) := v4_bytes a in
  byte_to_string b0 ++ "." ++ byte_to_string b1 ++ "."
    ++ byte_to_string b2 ++ "." ++ byte_to_string b3.

(** What the repository takes from its libraries and is not in its own
    sources: the conversion of a string to a port by
    [boost::lexical_cast<uint16_t>], [None] standing for its
    [bad_lexical_cast], and the rendering of an IPv6 address by
    [address_v6::to_string]. *)
Class Library := make_library
  { lexical_cast_uint16 : string -> option uint16_t;
    address_v6_to_string : address_v6 -> string }.

(** [address::to_string]: the rendering of the family the address is of. *)
Definition address_to_string {lib : Library} (a : address) : string :=
  match a with
  | from_v4 a4 => address_v4_to_string a4
  | from_v6 a6 => address_v6_to_string a6
  end.

(** ** State, and the monad of the member functions *)

Section Monad.

(** The state of the code that calls the resolution and receives its
    completion. *)
Variable caller_state : Type.

(** [endpoint::handler_type]: code of the caller, which may throw. *)
Definition handler_type :=
  error_code -> resolver_iterator -> caller_state ->
  outcome unit * caller_state.

(** A completion the resolver's [io_service] has still to run. *)
Definition completion := caller_state -> outcome unit * caller_state.

(** Everything outside the endpoint object: the queries the resolver has
    been given, the completions outstanding, the caller. *)
Record world := make_world
  { issued : list resolver_query;
    outstanding : list completion;
    caller : caller_state }.

(** The object a member function runs on, and the rest. *)
Record store (T : Type) := make_store { this : T; env : world }.

Definition M (T A : Type) := store T -> outcome A * store T.

Definition ret {T A} (a : A) : M T A := fun s => (Returned a, s).

Definition bind {T A B} (m : M T A) (k : A -> M T B) : M T B :=
  fun s =>
    match m s with
    | (Returned a, s') => k a s'
    | (Raised f, s') => (Raised f, s')
    end.

Definition raise {T A} (f : failure) : M T A := fun s => (Raised f, s).

Definition get_this {T} : M T T := fun s => (Returned (this s), s).

(** A call of the handler: it runs on the caller's state, at once. *)
Definition invoke {T} (handler : handler_type) (ec : error_code)
           (it : resolver_iterator) : M T unit :=
  fun s =>
    let w := env s in
    let '(o, c) := handler ec it (caller w) in
    (o, make_store (this s) (make_world (issued w) (outstanding w) c)).

End Monad.

Arguments ret {caller_state T A} a.
Arguments raise {caller_state T A} f.
Arguments get_this {caller_state T}.

Declare Scope endpoint_scope.
Delimit Scope endpoint_scope with endpoint.
Notation "x <- m ;; k" := (bind m (fun x => k))
  (at level 100, m at next level, right associativity) : endpoint_scope.
Local Open Scope endpoint_scope.

(** ** [ip_endpoint] *)

(** [template <typename AddressType> class ip_endpoint]; [m_port] is a
    [boost::optional<uint16_t>]. *)
Record ip_endpoint (A : Type) := make_ip_endpoint
  { m_address : A; m_port : option uint16_t }.

(** [udp::resolver&], by what the name service behind it answers to a
    query: an error code and the candidates.  What the resolver has been
    asked and what it has outstanding is in the [world]. *)
Record resolver := make_resolver
  { name_service : resolver_query -> error_code * resolver_iterator }.

Section IpEndpoint.

Context {lib : Library} {caller_state : Type}.
Context {A : Type} {address_type : AddressType A}.

(** [boost::lexical_cast<base_port_type>(default_service)]. *)
Definition lexical_cast_port (default_service : base_service_type)
  : M caller_state (ip_endpoint A) uint16_t :=
  match lexical_cast_uint16 default_service with
  | Some port => ret port
  | None => raise bad_lexical_cast
  end.

(** [ip_endpoint<AddressType>::resolve]. *)
Definition resolve (r : resolver) (protocol : protocol_type)
           (flags : flags_type) (default_service : base_service_type)
  : M caller_state (ip_endpoint A) ep_type :=
  self <- get_this ;;
  match m_port self with
  | Some port => ret (make_ep (to_address (m_address self)) port)
  | None =>
      port <- lexical_cast_port default_service ;;
      ret (make_ep (to_address (m_address self)) port)
  end.

(** [ip_endpoint<AddressType>::async_resolve]. *)
Definition async_resolve (r : resolver) (protocol : protocol_type)
           (flags : flags_type) (default_service : base_service_type)
           (handler : handler_type caller_state)
  : M caller_state (ip_endpoint A) unit :=
  ep <- resolve r protocol flags default_service ;;
  let it :=
    iterator_create ep (address_to_string (ep_address ep))
                    (lexical_cast_string (ep_port ep)) in
  invoke handler error_code_default it.

End IpEndpoint.

(** ** The resolver and its event loop *)

Section Resolver.

Context {caller_state : Type} {T : Type}.

(** Modelled from the spec: the resolver capability is Boost.Asio's, outside
    the repository.  Given a query it returns the candidates of the name
    service synchronously, or fails with the error of the name service. *)
Definition resolver_resolve (r : resolver) (q : resolver_query)
  : M caller_state T resolver_iterator :=
  fun s =>
    let w := env s in
    let s' :=
      make_store (this s)
                 (make_world (issued w ++ [q]) (outstanding w) (caller w)) in
    let '(ec, it) := name_service r q in
    if is_success ec then (Returned it, s')
    else (Raised (ResolutionFailure ec), s').

(** Modelled from the spec: asynchronously, the resolver capability invokes
    the callback with the same sequence, or with an error; the call itself
    only leaves the completion outstanding. *)
Definition resolver_async_resolve (r : resolver) (q : resolver_query)
           (handler : handler_type caller_state)
  : M caller_state T unit :=
  fun s =>
    let w := env s in
    let '(ec, it) := name_service r q in
    let done : completion caller_state :=
      handler ec (if is_success ec then it else []) in
    (Returned tt,
     make_store (this s)
                (make_world (issued w ++ [q]) (outstanding w ++ [done])
                            (caller w))).

End Resolver.

(** Modelled from the spec: the event loop that drives the asynchronous
    completions is outside the repository.  It runs the completions
    outstanding, each once and in order; one that throws stops it, the
    later ones staying outstanding. *)
Fixpoint run_completions {caller_state : Type}
         (cs : list (completion caller_state)) (c : caller_state)
  : outcome unit * list (completion caller_state) * caller_state :=
  match cs with
  | [] => (Returned tt, [], c)
  | k :: rest =>
      match k c with
      | (Returned _, c') => run_completions rest c'
      | (Raised f, c') => (Raised f, rest, c')
      end
  end.

Definition io_service_run {caller_state : Type} (w : world caller_state)
  : outcome unit * world caller_state :=
  let '(o, cs, c) := run_completions (outstanding w) (caller w) in
  (o, make_world (issued w) cs c).

(** ** [hostname_endpoint] *)

(** [class hostname_endpoint]; [m_service] is a
    [boost::optional<std::string>]. *)
Record hostname_endpoint := make_hostname_endpoint
  { m_hostname : string; m_service : option base_service_type }.

Section HostnameEndpoint.

Context {caller_state : Type}.

(** The query of a hostname endpoint: its own service when it has one, the
    default service otherwise. *)
Definition hostname_query (self : hostname_endpoint)
           (protocol : protocol_type) (flags : flags_type)
           (default_service : base_service_type) : resolver_query :=
  make_query protocol (m_hostname self)
             (match m_service self with
              | Some service => service
              | None => default_service
              end)
             flags.

(** Modelled from the spec: [hostname_endpoint::resolve] is declared in
    endpoint.hpp and defined outside it.  It builds the query, delegates to
    the resolver and returns the first candidate, or fails with
    [EmptyResult] when there is none. *)
Definition hostname_resolve (r : resolver) (protocol : protocol_type)
           (flags : flags_type) (default_service : base_service_type)
  : M caller_state hostname_endpoint ep_type :=
  self <- get_this ;;
  it <- resolver_resolve
          r (hostname_query self protocol flags default_service) ;;
  match it with
  | entry :: _ => ret (entry_endpoint entry)
  | [] => raise EmptyResult
  end.

(** Modelled from the spec: [hostname_endpoint::async_resolve] is declared
    in endpoint.hpp and defined outside it.  It builds the same query and
    forwards the whole candidate sequence of the resolver to the handler. *)
Definition hostname_async_resolve (r : resolver) (protocol : protocol_type)
           (flags : flags_type) (default_service : base_service_type)
           (handler : handler_type caller_state)
  : M caller_state hostname_endpoint unit :=
  self <- get_this ;;
  resolver_async_resolve
    r (hostname_query self protocol flags default_service) handler.

End HostnameEndpoint.

(** ** [endpoint]: the base class and its virtual member functions *)

Definition ipv4_endpoint := ip_endpoint address_v4.
Definition ipv6_endpoint := ip_endpoint address_v6.

(** The classes that derive from [endpoint]. *)
Inductive endpoint :=
| of_ipv4 (e : ipv4_endpoint)
| of_ipv6 (e : ipv6_endpoint)
| of_hostname (e : hostname_endpoint).

Section Endpoint.

Context {lib : Library} {caller_state : Type}.

(** A member function of a derived class, run on the object [obj] that the
    base class reference designates. *)
Definition member {T A} (up : T -> endpoint) (obj : T)
           (m : M caller_state T A) : M caller_state endpoint A :=
  fun s =>
    let '(o, s') := m (make_store obj (env s)) in
    (o, make_store (up (this s')) (env s')).

(** [endpoint::resolve], a virtual call. *)
Definition endpoint_resolve (r : resolver) (protocol : protocol_type)
           (flags : flags_type) (default_service : base_service_type)
  : M caller_state endpoint ep_type :=
  fun s =>
    match this s with
    | of_ipv4 e =>
        member of_ipv4 e (resolve r protocol flags default_service) s
    | of_ipv6 e =>
        member of_ipv6 e (resolve r protocol flags default_service) s
    | of_hostname e =>
        member of_hostname e
               (hostname_resolve r protocol flags default_service) s
    end.

(** [endpoint::async_resolve], a virtual call. *)
Definition endpoint_async_resolve (r : resolver) (protocol : protocol_type)
           (flags : flags_type) (default_service : base_service_type)
           (handler : handler_type caller_state)
  : M caller_state endpoint unit :=
  fun s =>
    match this s with
    | of_ipv4 e =>
        member of_ipv4 e
               (async_resolve r protocol flags default_service handler) s
    | of_ipv6 e =>
        member of_ipv6 e
               (async_resolve r protocol flags default_service handler) s
    | of_hostname e =>
        member of_hostname e
               (hostname_async_resolve r protocol flags default_service
                                       handler) s
    end.

End Endpoint.

(** ** Observing a resolution *)

(** What a handler is called with. *)
Definition delivery : Type := error_code * resolver_iterator.

(** A handler that does nothing but note every call made to it, in order:
    the caller's state is the list of the calls. *)
Definition recording_handler : handler_type (list delivery) :=
  fun ec it calls => (Returned tt, (calls ++ [(ec, it)])%list).

(** A world where nothing has been asked, nothing is outstanding and the
    handler has not been called. *)
Definition fresh : world (list delivery) := make_world [] [] [].

(** The result of the synchronous resolution of [e]. *)
Definition observe_resolve {lib : Library} (e : endpoint) (r : resolver)
           (protocol : protocol_type) (flags : flags_type)
           (default_service : base_service_type) : outcome ep_type :=
  fst (endpoint_resolve r protocol flags default_service
                        (make_store e fresh)).

(** What the asynchronous resolution of [e] lets a caller see: the failure
    [async_resolve] itself raised, if any, the calls the handler had got
    when [async_resolve] came back, and the calls it has got once the event
    loop has run what was outstanding. *)
Record async_observation := make_async_observation
  { raised : option failure;
    delivered_at_return : list delivery;
    delivered : list delivery }.

Definition observe_async_resolve {lib : Library} (e : endpoint) (r : resolver)
           (protocol : protocol_type) (flags : flags_type)
           (default_service : base_service_type) : async_observation :=
  let '(o, s) :=
    endpoint_async_resolve r protocol flags default_service
                           recording_handler (make_store e fresh) in
  make_async_observation
    (match o with Returned _ => None | Raised x => Some x end)
    (caller (env s))
    (caller (snd (io_service_run (env s)))).

(** The Transport Endpoint a delivery gives, by the rule of the synchronous
    path: the failure of the resolver if there is one, the first candidate
    otherwise, and [EmptyResult] when the sequence has no candidate. *)
Definition yield (d : delivery) : outcome ep_type :=
  let '(ec, it) := d in
  if is_success ec then
    match it with
    | entry :: _ => Returned (entry_endpoint entry)
    | [] => Raised EmptyResult
    end
  else Raised (ResolutionFailure ec).

(** The handler is called once and only once, and [async_resolve] itself
    raises nothing. *)
Definition completes_exactly_once (o : async_observation) : Prop :=
  List.length (delivered o) = 1%nat /\ raised o = None.

(** ** The libraries of the program *)

(** *** [boost::lexical_cast<uint16_t>]

    Library code, outside the repository, as Boost has it for an unsigned
    target: an empty string fails; a leading ['-'] or ['+'] is skipped;
    what follows must be one decimal digit or more, of a value that fits
    the type; with a ['-'] the result is [0u - output] cut to the type. *)

Definition is_digit (c : ascii) : bool :=
  (48 <=? N_of_ascii c) && (N_of_ascii c <=? 57).

Definition digit_value (c : ascii) : N := N_of_ascii c - 48.

(** The digits, one after the other; the conversion stops at a character
    that is no digit and at a value that [uint16_t] cannot hold. *)
Fixpoint digits_to_uint16 (value : N) (s : string) : option N :=
  match s with
  | EmptyString => Some value
  | String c rest =>
      if is_digit c then
        let value' := 10 * value + digit_value c in
        if value' <=? 65535 then digits_to_uint16 value' rest else None
      else None
  end.

Definition lexical_cast_uint16_boost (s : string) : option uint16_t :=
  match s with
  | EmptyString => None
  | String c rest =>
      let has_minus := Ascii.eqb c "-" in
      let digits := if has_minus || Ascii.eqb c "+" then rest else s in
      match digits with
      | EmptyString => None
      | String _ _ =>
          option_map
            (fun output =>
               if has_minus then (65536 - output) mod 65536 else output)
            (digits_to_uint16 0 digits)
      end
  end.

(** *** What a string reads as: a sign and a decimal number *)

Fixpoint all_digits (s : string) : bool :=
  match s with
  | EmptyString => true
  | String c rest => is_digit c && all_digits rest
  end.

(** The number that decimal digits write, after [value]. *)
Fixpoint decimal_value (value : N) (s : string) : N :=
  match s with
  | EmptyString => value
  | String c rest => decimal_value (10 * value + digit_value c) rest
  end.

(** A string made of an optional sign and of one decimal digit or more:
    whether the sign is ['-'], and the number the digits write. *)
Definition signed_decimal (s : string) : option (bool * N) :=
  let signed digits minus :=
    match digits with
    | EmptyString => None
    | String _ _ =>
        if all_digits digits then Some (minus, decimal_value 0 digits)
        else None
    end in
  match s with
  | EmptyString => None
  | String c digits =>
      if Ascii.eqb c "-" then signed digits true
      else if Ascii.eqb c "+" then signed digits false
      else signed s false
  end.

(** The claim C2 as the specification words it, for the result [o] of the
    resolution of an endpoint of address [a] without a port: the port read
    from a base-10 unsigned 16-bit integer, a failure on anything else. *)
Definition resolves_as_decimal_uint16
           (a : address) (default_service : base_service_type)
           (o : outcome ep_type) : Prop :=
  o = match decimal_uint16 default_service with
      | Some port => Returned (make_ep a port)
      | None => Raised InvalidServiceFormat
      end.

(** *** [address_v6::to_string]

    Library code, outside the repository: [inet_ntop] for [AF_INET6], then
    the scope id when there is one. *)

(** The eight 16-bit groups of the sixteen bytes. *)
Fixpoint v6_words (bytes : list byte) : list N :=
  match bytes with
  | hi :: lo :: rest => 256 * Byte.to_N hi + Byte.to_N lo :: v6_words rest
  | _ => []
  end.

(** A run of groups that are zero: where it starts, how long it is. *)
Record zero_run := make_run { run_base : nat; run_len : nat }.

Definition longer (cur best : option zero_run) : option zero_run :=
  match cur, best with
  | None, _ => best
  | Some _, None => cur
  | Some c, Some b => if (run_len b <? run_len c)%nat then cur else best
  end.

(** The longest run of zero groups, the first one of the longest. *)
Fixpoint best_zero_run (i : nat) (words : list N)
         (cur best : option zero_run) : option zero_run :=
  match words with
  | [] => longer cur best
  | w :: rest =>
      if w =? 0 then
        best_zero_run
          (S i) rest
          (Some (match cur with
                 | None => make_run i 1
                 | Some c => make_run (run_base c) (S (run_len c))
                 end))
          best
      else best_zero_run (S i) rest None (longer cur best)
  end.

(** A run of one group is not shortened. *)
Definition shortened (words : list N) : option zero_run :=
  match best_zero_run 0 words None None with
  | Some run => if (run_len run <? 2)%nat then None else Some run
  | None => None
  end.

Definition in_run (best : option zero_run) (i : nat) : bool :=
  match best with
  | Some run =>
      (run_base run <=? i)%nat && (i <? run_base run + run_len run)%nat
  | None => false
  end.

(** An address that holds an IPv4 address in its last four bytes. *)
Definition encapsulated_v4 (best : option zero_run) (words : list N)
  : bool :=
  match best with
  | Some run =>
      (run_base run =? 0)%nat
      && ((run_len run =? 6)%nat
          || ((run_len run =? 5)%nat && (nth 5 words 0 =? 65535)))
  | None => false
  end.

Definition inet_ntop4 (bytes : list byte) : string :=
  String.concat "." (map byte_to_string bytes).

Definition hex_group (w : N) : string :=
  HexadecimalString.NilZero.string_of_uint (N.to_hex_uint w).

Fixpoint inet_ntop6_groups (best : option zero_run) (bytes : list byte)
         (all_words : list N) (i : nat) (words : list N) : string :=
  match words with
  | [] => ""
  | w :: rest =>
      if in_run best i then
        (if match best with
            | Some run => (i =? run_base run)%nat
            | None => false
            end
         then ":" else "")
        ++ inet_ntop6_groups best bytes all_words (S i) rest
      else
        (if (i =? 0)%nat then "" else ":")
        ++ (if (i =? 6)%nat && encapsulated_v4 best all_words
            then inet_ntop4 (skipn 12 bytes)
            else hex_group w
                 ++ inet_ntop6_groups best bytes all_words (S i) rest)
  end.

Definition inet_ntop6 (bytes : list byte) : string :=
  let words := v6_words bytes in
  let best := shortened words in
  inet_ntop6_groups best bytes words 0 words
  ++ match best with
     | Some run => if (run_base run + run_len run =? 8)%nat then ":" else ""
     | None => ""
     end.

(** [IN6_IS_ADDR_LINKLOCAL]: fe80::/10. *)
Definition is_link_local (a : address_v6) : bool :=
  match v6_bytes a with
  | b0 :: b1 :: _ =>
      (Byte.to_N b0 =? 254) && (N.land (Byte.to_N b1) 192 =? 128)
  | _ => false
  end.

(** [address_v6::to_string], given the [if_indextoname] of the system: the
    scope id of a link-local address is written as the name of the
    interface when it has one, and as a number otherwise. *)
Definition asio_address_v6_to_string
           (if_indextoname : N -> option string) (a : address_v6) : string :=
  inet_ntop6 (v6_bytes a)
  ++ (if v6_scope_id a =? 0 then ""
      else
        "%"
        ++ match (if is_link_local a then if_indextoname (v6_scope_id a)
                  else None) with
           | Some name => name
           | None => NilZero.string_of_uint (N.to_uint (v6_scope_id a))
           end).

(** The library of the program, on a system where no interface has a
    name. *)
Definition example_library : Library :=
  make_library lexical_cast_uint16_boost
               (asio_address_v6_to_string (fun _ => None)).

(** [fe80::c887:eb51:aaaa:bbbb]. *)
Definition address_fe80_c887 : address_v6 :=
  make_address_v6
    [xfe; x80; x00; x00; x00; x00; x00; x00;
     xc8; x87; xeb; x51; xaa; xaa; xbb; xbb]%byte 0.

(** [9.0.0.1]. *)
Definition address_9_0_0_1 : address_v4 :=
  make_address_v4 (x09, x00, x00, x01)%byte.

(** The literal endpoint of 9.0.0.1, with or without a port. *)
Definition literal_9_0_0_1 (port : option uint16_t) : ipv4_endpoint :=
  make_ip_endpoint address_9_0_0_1 port.

(** A resolver whose name service knows nothing. *)
Definition no_resolver : resolver :=
  make_resolver (fun _ => (1, [])).

(** A resolver whose name service answers every query with the given
    candidates. *)
Definition constant_resolver (it : resolver_iterator) : resolver :=
  make_resolver (fun _ => (error_code_default, it)).

(** * samples/tap/tap.cpp: the TAP test program

    The program's globals ([signaled], [stop_function], [my_buf]), what it
    prints, and the calls it makes to the [asiotap::tap_adapter] are the
    state; an exception thrown by the adapter is the [Thrown] result. *)

From Stdlib Require Import ZArith.

Module Tap.

(** The exceptions of the adapter, [boost::system::system_error]. *)
Inductive exception := system_error (ec : error_code).

Inductive result (A : Type) :=
| Done (a : A)
| Thrown (e : exception).
Arguments Done {A} a.
Arguments Thrown {A} e.

(** The member functions of [asiotap::tap_adapter] that the program calls.
    A buffer is always [my_buf] from its first byte: it is given by its
    size. *)
Inductive adapter_call :=
| open
| close
| cancel
| set_connected_state (connected : bool)
| add_ip_address_v4 (a : address_v4) (prefix_len : N)
| add_ip_address_v6 (a : address_v6) (prefix_len : N)
| remove_ip_address_v4 (a : address_v4) (prefix_len : N)
| remove_ip_address_v6 (a : address_v6) (prefix_len : N)
| async_read (size : N)
| async_write (size : N).

(** An operation the adapter has been given and has not completed; a read
    completes with [read_done], a write with [write_done], as bound by the
    program. *)
Inductive operation :=
| read_operation (size : N)
| write_operation (size : N).

Definition started (c : adapter_call) : list operation :=
  match c with
  | async_read size => [read_operation size]
  | async_write size => [write_operation size]
  | _ => []
  end.

(** [asiotap::osi::arp_frame], by the field the program reads. *)
Record arp_frame := make_arp_frame { sender_logical_address : N }.

(** What the program sends to [std::cerr] and [std::cout], line by line. *)
Inductive cerr_line :=
| cerr_text (text : string)
| cerr_exception_caught (e : exception).

Inductive cout_line :=
| cout_write (cnt : N) (ec : error_code)
| cout_read (cnt : N) (ec : error_code)
| cout_arp_frame (sender : N).

(** What the program takes from the platform and from asiotap and is not
    in its sources: the signal numbers of [<csignal>], whether [signal]
    returns [SIG_ERR] for a signal, whether a call of the adapter throws,
    given the calls made so far, and the ARP frames, with their payloads,
    that the filters find in a buffer. *)
Class Platform := make_platform
  { SIGTERM : Z;
    SIGINT : Z;
    SIGABRT : Z;
    signal_fails : Z -> bool;
    adapter_throws : list adapter_call -> adapter_call -> option error_code;
    arp_frames : list byte -> list (arp_frame * list byte) }.

(** Everything but the two globals of the signal handler.  [received] and
    [wire] are the frames the adapter has read in and written out. *)
Record machine := make_machine
  { handled : list Z;
    cerr : list cerr_line;
    cout : list cout_line;
    my_buf : list byte;
    calls : list adapter_call;
    pending : list operation;
    received : list (list byte);
    wire : list (list byte) }.

Definition set_handled (x : list Z) (m : machine) : machine :=
  make_machine x (cerr m) (cout m) (my_buf m) (calls m) (pending m)
               (received m) (wire m).
Definition set_cerr (x : list cerr_line) (m : machine) : machine :=
  make_machine (handled m) x (cout m) (my_buf m) (calls m) (pending m)
               (received m) (wire m).
Definition set_cout (x : list cout_line) (m : machine) : machine :=
  make_machine (handled m) (cerr m) x (my_buf m) (calls m) (pending m)
               (received m) (wire m).
Definition set_my_buf (x : list byte) (m : machine) : machine :=
  make_machine (handled m) (cerr m) (cout m) x (calls m) (pending m)
               (received m) (wire m).
Definition set_calls (x : list adapter_call) (m : machine) : machine :=
  make_machine (handled m) (cerr m) (cout m) (my_buf m) x (pending m)
               (received m) (wire m).
Definition set_pending (x : list operation) (m : machine) : machine :=
  make_machine (handled m) (cerr m) (cout m) (my_buf m) (calls m) x
               (received m) (wire m).
Definition set_received (x : list (list byte)) (m : machine) : machine :=
  make_machine (handled m) (cerr m) (cout m) (my_buf m) (calls m) (pending m)
               x (wire m).
Definition set_wire (x : list (list byte)) (m : machine) : machine :=
  make_machine (handled m) (cerr m) (cout m) (my_buf m) (calls m) (pending m)
               (received m) x.

(** The monad of the functions of the program. *)
Definition Pm (A : Type) := machine -> result A * machine.

Definition ret {A} (a : A) : Pm A := fun m => (Done a, m).

Definition bind {A B} (c : Pm A) (k : A -> Pm B) : Pm B :=
  fun m =>
    match c m with
    | (Done a, m') => k a m'
    | (Thrown e, m') => (Thrown e, m')
    end.

Definition get : Pm machine := fun m => (Done m, m).

Declare Scope tap_scope.
Delimit Scope tap_scope with tap.
Notation "x <- c ;; k" := (bind c (fun x => k))
  (at level 100, c at next level, right associativity) : tap_scope.
Notation "c ;; k" := (bind c (fun _ => k))
  (at level 100, right associativity) : tap_scope.
Local Open Scope tap_scope.

Definition print_cerr (l : cerr_line) : Pm unit :=
  fun m => (Done tt, set_cerr (cerr m ++ [l]) m).

Definition print_cout (l : cout_line) : Pm unit :=
  fun m => (Done tt, set_cout (cout m ++ [l]) m).

(** [sizeof(my_buf)]. *)
Definition sizeof_my_buf : N := 2048.

(** [boost::asio::buffer(my_buf, size)]: the first [size] bytes. *)
Definition buffer (size : N) (m : machine) : list byte :=
  firstn (N.to_nat size) (my_buf m).

(** [address_v4::from_string("9.0.0.1")] is [address_9_0_0_1]; this is
    [address_v6::from_string("fe80::c887:eb51:aaaa:bbbb")]. *)
Definition address_fe80 : address_v6 :=
  make_address_v6
    [xfe; x80; x00; x00; x00; x00; x00; x00;
     xc8; x87; xeb; x51; xaa; xaa; xbb; xbb]%byte 0.

(** The longest prefix of a list whose elements all pass a test. *)
Fixpoint take_while {A} (test : A -> bool) (l : list A) : list A :=
  match l with
  | [] => []
  | x :: rest => if test x then x :: take_while test rest else []
  end.

Section Program.

Context {platform : Platform}.

(** A call of a member function of the adapter: it is made, and either
    throws or, for a read or a write, leaves an operation pending. *)
Definition tap_adapter (c : adapter_call) : Pm unit :=
  fun m =>
    let m' := set_calls (calls m ++ [c]) m in
    match adapter_throws (calls m) c with
    | Some ec => (Thrown (system_error ec), m')
    | None => (Done tt, set_pending (pending m' ++ started c) m')
    end.

(** [ethernet_filter.parse(buffer)], with the ARP filter on top of it: the
    callback is called for the ARP frames of the buffer. *)
Fixpoint for_each {A} (f : A -> Pm unit) (l : list A) : Pm unit :=
  match l with
  | [] => ret tt
  | x :: rest => f x ;; for_each f rest
  end.

Definition ethernet_filter_parse
           (buf : list byte) (callback : arp_frame -> list byte -> Pm unit)
  : Pm unit :=
  for_each (fun found => callback (fst found) (snd found)) (arp_frames buf).

(** [arp_frame_read]. *)
Definition arp_frame_read (frame : arp_frame) (payload : list byte)
  : Pm unit :=
  print_cout (cout_arp_frame (sender_logical_address frame)).

(** [write_done]. *)
Definition write_done (ec : error_code) (cnt : N) : Pm unit :=
  print_cout (cout_write cnt ec) ;;
  if is_success ec then tap_adapter (async_read sizeof_my_buf)
  else ret tt.

(** [read_done]. *)
Definition read_done (ec : error_code) (cnt : N) : Pm unit :=
  print_cout (cout_read cnt ec) ;;
  if is_success ec then
    m <- get ;;
    ethernet_filter_parse (buffer cnt m) arp_frame_read ;;
    tap_adapter (async_write cnt)
  else ret tt.

(** [close_tap_adapter]. *)
Definition close_tap_adapter : Pm unit :=
  tap_adapter (remove_ip_address_v6 address_fe80 64) ;;
  tap_adapter (remove_ip_address_v4 address_9_0_0_1 24) ;;
  tap_adapter cancel ;;
  tap_adapter (set_connected_state false) ;;
  tap_adapter close.

(** The signals that [signal] accepts. *)
Definition catchable (sig : Z) : bool := negb (signal_fails sig).

(** [signal(sig, signal_handler)]: [true] when it is not [SIG_ERR]. *)
Definition signal (sig : Z) (m : machine) : bool * machine :=
  if signal_fails sig then (false, m)
  else (true, set_handled (handled m ++ [sig]) m).

(** [register_signal_handlers]. *)
Definition register_signal_handlers (m : machine) : bool * machine :=
  let '(ok, m) := signal SIGTERM m in
  if negb ok then
    (false, snd (print_cerr (cerr_text "Failed to catch SIGTERM signals.") m))
  else
  let '(ok, m) := signal SIGINT m in
  if negb ok then
    (false, snd (print_cerr (cerr_text "Failed to catch SIGINT signals.") m))
  else
  let '(ok, m) := signal SIGABRT m in
  if negb ok then
    (false, snd (print_cerr (cerr_text "Failed to catch SIGABRT signals.") m))
  else (true, m).

(** The globals of the signal handler, [boost::function<void ()>] being a
    function of the program or nothing, and the rest. *)
Record process := make_process
  { signaled : bool;
    stop_function : option (Pm unit);
    machine_of : machine }.

(** The cases of the [switch] of [signal_handler] other than [default]. *)
Definition stops (code : Z) : bool :=
  (code =? SIGTERM)%Z || (code =? SIGINT)%Z || (code =? SIGABRT)%Z.

(** [signal_handler]. *)
Definition signal_handler (code : Z) (p : process) : result unit * process :=
  if stops code then
    match signaled p, stop_function p with
    | false, Some stop =>
        let m :=
          snd (print_cerr (cerr_text "Signal caught: stopping...")
                          (machine_of p)) in
        match stop m with
        | (Done _, m') => (Done tt, make_process true None m')
        | (Thrown e, m') => (Thrown e, make_process true (Some stop) m')
        end
    | _, _ => (Done tt, p)
    end
  else (Done tt, p).

(** [stop_function = stop]. *)
Definition set_stop_function (stop : Pm unit) (p : process) : process :=
  make_process (signaled p) (Some stop) (machine_of p).

(** The calls of [close_tap_adapter]. *)
Definition teardown : list adapter_call :=
  [remove_ip_address_v6 address_fe80 64;
   remove_ip_address_v4 address_9_0_0_1 24;
   cancel; set_connected_state false; close].

(** The signals a process gets, one after the other. *)
Definition signals (codes : list Z) (p : process) : process :=
  fold_left (fun p code => snd (signal_handler code p)) codes p.

(** What a signal that stops the program does to a process that has not
    been stopped and has a stop function: the function is run, once. *)
Definition stopped (stop : Pm unit) (p : process) : process :=
  let '(r, m) :=
    stop (snd (print_cerr (cerr_text "Signal caught: stopping...")
                          (machine_of p))) in
  make_process true
               (match r with Done _ => None | Thrown _ => Some stop end) m.

(** ** The event loop *)

(** What the adapter reports when it completes an operation: an error
    code and, for a read, the frame read. *)
Definition event : Type := error_code * list byte.

(** The completion of the oldest pending operation.  A read that succeeds
    has put the frame, at most as long as the buffer it was given, at the
    start of [my_buf], and reports its size; a write that succeeds has put
    on the wire what the buffer it was given holds, and reports its size;
    one that fails reports no byte. *)
Definition complete (ev : event) : Pm unit :=
  fun m =>
    match pending m with
    | [] => (Done tt, m)
    | read_operation size :: rest =>
        if is_success (fst ev) then
          let frame := firstn (N.to_nat size) (snd ev) in
          let cnt := N.of_nat (List.length frame) in
          read_done (fst ev) cnt
            (set_received (received m ++ [frame])
               (set_my_buf (frame ++ skipn (List.length frame) (my_buf m))
                  (set_pending rest m)))
        else read_done (fst ev) 0 (set_pending rest m)
    | write_operation size :: rest =>
        if is_success (fst ev) then
          write_done (fst ev) size
            (set_wire (wire m ++ [buffer size m]) (set_pending rest m))
        else write_done (fst ev) 0 (set_pending rest m)
    end.

(** Completions one after the other; an exception ends them. *)
Fixpoint completions (events : list event) : Pm unit :=
  match events with
  | [] => ret tt
  | ev :: rest => complete ev ;; completions rest
  end.

(** [io_service::run]: it completes operations as long as one is pending,
    and returns when none is; [None] is a run that has used up the events
    and waits. *)
Fixpoint io_service_run (events : list event) (m : machine)
  : option (result unit) * machine :=
  match pending m with
  | [] => (Some (Done tt), m)
  | _ :: _ =>
      match events with
      | [] => (None, m)
      | ev :: rest =>
          match complete ev m with
          | (Done _, m') => io_service_run rest m'
          | (Thrown e, m') => (Some (Thrown e), m')
          end
      end
  end.

(** ** [main] *)

Inductive exit_status := EXIT_SUCCESS | EXIT_FAILURE.

(** What [main] does to the adapter before it runs the event loop. *)
Definition setup : Pm unit :=
  tap_adapter open ;;
  tap_adapter (add_ip_address_v4 address_9_0_0_1 24) ;;
  tap_adapter (add_ip_address_v6 address_fe80 64) ;;
  tap_adapter (set_connected_state true) ;;
  tap_adapter (async_read sizeof_my_buf).

(** [main], on the events its event loop gets; [None] is a program that
    still runs. *)
Definition main (events : list event) (p : process)
  : option exit_status * process :=
  let '(ok, m) := register_signal_handlers (machine_of p) in
  if negb ok then
    (Some EXIT_FAILURE, make_process (signaled p) (stop_function p) m)
  else
    let caught e m :=
      (Some EXIT_FAILURE,
       make_process (signaled p) (Some close_tap_adapter)
                    (snd (print_cerr (cerr_exception_caught e) m))) in
    match setup m with
    | (Thrown e, m') => caught e m'
    | (Done _, m') =>
        match io_service_run events m' with
        | (Some (Thrown e), m'') => caught e m''
        | (Some (Done _), m'') =>
            (Some EXIT_SUCCESS,
             make_process (signaled p) (Some close_tap_adapter) m'')
        | (None, m'') =>
            (None, make_process (signaled p) (Some close_tap_adapter) m'')
        end
    end.

(** ** Where the echo loop stands *)

(** The program reads a frame, writes it back, and starts again.  Either a
    read is pending and every frame read has been written; or the write
    of the last frame read is pending, the frame being at the start of
    [my_buf]; or nothing is pending any more, and at most the last frame
    read has not been written. *)
Inductive phase (m : machine) : Prop :=
| reading :
    pending m = [read_operation sizeof_my_buf] ->
    received m = wire m ->
    phase m
| writing (cnt : N) (frame : list byte) :
    pending m = [write_operation cnt] ->
    received m = (wire m ++ [frame])%list ->
    buffer cnt m = frame ->
    phase m
| idle (unwritten : list (list byte)) :
    pending m = [] ->
    received m = (wire m ++ unwritten)%list ->
    (List.length unwritten <= 1)%nat ->
    phase m.

End Program.

(** The state of the program when it starts: [my_buf] is zero-initialised. *)
Definition initial_machine : machine :=
  make_machine [] [] [] (repeat x00%byte 2048) [] [] [] [].

Definition initial_process : process :=
  make_process false None initial_machine.

(** A platform to run the definitions on: the signal numbers of Linux,
    every signal caught, an adapter that never throws, filters that find
    no ARP frame. *)
Definition example_platform : Platform :=
  make_platform 15 2 6 (fun _ => false) (fun _ _ => None) (fun _ => []).

(** Two frames read and written back, then a write that fails. *)
Definition two_frames_then_failure : list event :=
  [(0, [x01; x02]%byte); (0, []); (0, [x07]%byte); (5, [])].

(** The program on [example_platform] once its first read has completed
    and the frame waits to be written back. *)
Definition after_first_read : process :=
  snd (main (platform := example_platform) [(0, [x01; x02]%byte)]
            initial_process).

(** The same platform, but for [SIGABRT], which cannot be caught. *)
Definition deaf_platform : Platform :=
  make_platform 15 2 6 (fun sig => (sig =? 6)%Z) (fun _ _ => None)
                (fun _ => []).

End Tap.

(** * Properties *)

(** ** The conversions *)

Lemma decimal_uint16_range (s : string) (port : uint16_t) :
  decimal_uint16 s = Some port -> is_uint16 port.
Proof.
  unfold decimal_uint16, is_uint16.
  destruct (NilZero.uint_of_string s) as [d|]; [|discriminate].
  cbv zeta.
  destruct (N.ltb_spec (N.of_uint d) 65536) as [Hlt|Hge]; [|discriminate].
  intros [= <-]. exact Hlt.
Qed.

Lemma N_to_uint_nonnil (n : N) : N.to_uint n <> Decimal.Nil.
Proof.
  destruct n as [|p]; [discriminate|].
  apply DecimalPos.Unsigned.to_uint_nonnil.
Qed.

(** The rendering of a port reads back as the port. *)
Lemma decimal_uint16_lexical_cast_string (port : uint16_t) :
  is_uint16 port -> decimal_uint16 (lexical_cast_string port) = Some port.
Proof.
  unfold decimal_uint16, lexical_cast_string, is_uint16. intros Hport.
  rewrite NilZero.usu by apply N_to_uint_nonnil.
  cbv zeta. rewrite DecimalN.Unsigned.of_to.
  apply N.ltb_lt in Hport. now rewrite Hport.
Qed.

Example decimal_uint16_8000 : decimal_uint16 "8000" = Some 8000.
Proof. reflexivity. Qed.

Example decimal_uint16_not_a_number : decimal_uint16 "not-a-number" = None.
Proof. reflexivity. Qed.

Example decimal_uint16_too_large : decimal_uint16 "65536" = None.
Proof. reflexivity. Qed.

Example decimal_uint16_empty : decimal_uint16 "" = None.
Proof. reflexivity. Qed.

(** The digits read so far are never taken back. *)
Lemma decimal_value_ge (s : string) (value : N) :
  value <= decimal_value value s.
Proof.
  revert value.
  induction s as [|c rest IH]; intros value; cbn [decimal_value].
  - apply N.le_refl.
  - etransitivity; [|apply IH]. lia.
Qed.

(** The conversion digit by digit gives the number the digits write, when
    [uint16_t] holds it, and fails otherwise. *)
Lemma digits_to_uint16_decimal_value (s : string) (value : N) :
  value <= 65535 ->
  digits_to_uint16 value s =
  if all_digits s && (decimal_value value s <=? 65535)
  then Some (decimal_value value s) else None.
Proof.
  revert value.
  induction s as [|c rest IH]; intros value Hvalue;
    cbn [digits_to_uint16 all_digits decimal_value].
  - apply N.leb_le in Hvalue. now rewrite Hvalue.
  - destruct (is_digit c); [|reflexivity]. cbn [andb].
    destruct (N.leb_spec (10 * value + digit_value c) 65535) as [Hle|Hgt].
    + now apply IH.
    + pose proof (decimal_value_ge rest (10 * value + digit_value c)) as Hge.
      destruct (N.leb_spec (decimal_value (10 * value + digit_value c) rest)
                           65535) as [Hle|_]; [lia|].
      now rewrite andb_false_r.
Qed.

(** [lexical_cast<uint16_t>] reads an optional sign and a decimal number
    that [uint16_t] holds, and takes the number from 65536 after a
    ['-']. *)
Lemma lexical_cast_uint16_boost_signed_decimal (s : string) :
  lexical_cast_uint16_boost s =
  match signed_decimal s with
  | Some (minus, value) =>
      if value <=? 65535
      then Some (if minus then (65536 - value) mod 65536 else value)
      else None
  | None => None
  end.
Proof.
  destruct s as [|c rest]; [reflexivity|].
  unfold lexical_cast_uint16_boost, signed_decimal.
  assert (Hdigits : forall (digits : string) (minus : bool),
             match digits with
             | EmptyString => None
             | String _ _ =>
                 option_map
                   (fun output =>
                      if minus then (65536 - output) mod 65536 else output)
                   (digits_to_uint16 0 digits)
             end =
             match
               match digits with
               | EmptyString => None
               | String _ _ =>
                   if all_digits digits
                   then Some (minus, decimal_value 0 digits) else None
               end
             with
             | Some (minus, value) =>
                 if value <=? 65535
                 then Some (if minus then (65536 - value) mod 65536
                            else value)
                 else None
             | None => None
             end).
  { intros [|d digits] minus; [reflexivity|].
    rewrite digits_to_uint16_decimal_value by lia.
    destruct (all_digits (String d digits)); [|reflexivity]. cbn [andb].
    now destruct (decimal_value 0 (String d digits) <=? 65535). }
  destruct (Ascii.eqb c "-"); [exact (Hdigits rest true)|].
  destruct (Ascii.eqb c "+");
    [exact (Hdigits rest false)|exact (Hdigits (String c rest) false)].
Qed.

(** What [lexical_cast<uint16_t>] returns is a [uint16_t]. *)
Lemma lexical_cast_uint16_boost_range (s : string) (port : uint16_t) :
  lexical_cast_uint16_boost s = Some port -> is_uint16 port.
Proof.
  rewrite lexical_cast_uint16_boost_signed_decimal. unfold is_uint16.
  destruct (signed_decimal s) as [[minus value]|]; [|discriminate].
  destruct (N.leb_spec value 65535) as [Hle|_]; [|discriminate].
  intros [= <-]. destruct minus; [|lia].
  apply N.mod_lt. discriminate.
Qed.

(** The digits that the standard library reads are the digits, and the
    number it makes of them the number they write. *)
Lemma uint_of_string_decimal_value (s : string) (d : Decimal.uint) :
  NilEmpty.uint_of_string s = Some d ->
  all_digits s = true /\
  (forall acc : positive,
      N.pos (Pos.of_uint_acc d acc) = decimal_value (N.pos acc) s) /\
  N.of_uint d = decimal_value 0 s.
Proof.
  revert d. induction s as [|c rest IH]; intros d Hd.
  - injection Hd as <-. repeat split.
  - cbn [NilEmpty.uint_of_string] in Hd.
    destruct (NilEmpty.uint_of_string rest) as [d'|];
      [|now destruct c as [[] [] [] [] [] [] [] []]].
    destruct (IH d' eq_refl) as (Hall & Hacc & Hzero).
    unfold N.of_uint in *.
    destruct c as [[] [] [] [] [] [] [] []]; try discriminate Hd;
      injection Hd as <-;
      (split; [exact Hall|]);
      cbn [Pos.of_uint Pos.of_uint_acc decimal_value];
      match goal with
      | |- context [digit_value ?c] =>
          let v := eval compute in (digit_value c) in
          change (digit_value c) with v
      end;
      (split; [intros acc|]; rewrite ?Hacc; try exact Hzero; f_equal; lia).
Qed.

Lemma is_digit_no_sign (c : ascii) :
  is_digit c = true -> Ascii.eqb c "-" = false /\ Ascii.eqb c "+" = false.
Proof.
  destruct c as [[] [] [] [] [] [] [] []]; cbn; intros H;
    try discriminate H; split; reflexivity.
Qed.

(** Where the specification reads a port, the program converts to the
    same port: the two differ on the signs. *)
Lemma lexical_cast_uint16_boost_decimal_uint16 (s : string)
      (port : uint16_t) :
  decimal_uint16 s = Some port -> lexical_cast_uint16_boost s = Some port.
Proof.
  unfold decimal_uint16, NilZero.uint_of_string.
  destruct s as [|c rest]; [discriminate|].
  destruct (NilEmpty.uint_of_string (String c rest)) as [d|] eqn:Hd;
    [|discriminate].
  destruct (uint_of_string_decimal_value _ Hd) as (Hall & _ & Hvalue).
  cbv zeta. rewrite Hvalue.
  destruct (N.ltb_spec (decimal_value 0 (String c rest)) 65536) as [Hlt|_];
    [|discriminate].
  intros [= <-].
  rewrite lexical_cast_uint16_boost_signed_decimal. unfold signed_decimal.
  assert (Hc : is_digit c = true)
    by (cbn [all_digits] in Hall; now apply andb_true_iff in Hall).
  destruct (is_digit_no_sign c Hc) as [-> ->]. rewrite Hall.
  destruct (N.leb_spec (decimal_value 0 (String c rest)) 65535) as [_|Hgt];
    [reflexivity|lia].
Qed.

(** The rendering of a port converts back to the port. *)
Lemma lexical_cast_uint16_boost_lexical_cast_string (port : uint16_t) :
  is_uint16 port ->
  lexical_cast_uint16_boost (lexical_cast_string port) = Some port.
Proof.
  intros Hport.
  now apply lexical_cast_uint16_boost_decimal_uint16,
    decimal_uint16_lexical_cast_string.
Qed.

Example lexical_cast_uint16_boost_minus_one :
  lexical_cast_uint16_boost "-1" = Some 65535.
Proof. reflexivity. Qed.

Example lexical_cast_uint16_boost_plus_80 :
  lexical_cast_uint16_boost "+80" = Some 80.
Proof. reflexivity. Qed.

Example lexical_cast_uint16_boost_not_a_number :
  lexical_cast_uint16_boost "not-a-number" = None.
Proof. reflexivity. Qed.

Example lexical_cast_uint16_boost_too_large :
  lexical_cast_uint16_boost "65536" = None.
Proof. reflexivity. Qed.

Example asio_address_v6_to_string_fe80 :
  asio_address_v6_to_string (fun _ => None) address_fe80_c887 =
  "fe80::c887:eb51:aaaa:bbbb".
Proof. reflexivity. Qed.

(** ** [ip_endpoint] *)

Section IpEndpointFacts.

Context {lib : Library} {caller_state : Type}.
Context {A : Type} {address_type : AddressType A}.

Implicit Types (self : ip_endpoint A) (r : resolver) (protocol : protocol_type).
Implicit Types (flags : flags_type) (default_service : base_service_type).
Implicit Types (s : store caller_state (ip_endpoint A)).
Implicit Types (w : world caller_state) (handler : handler_type caller_state).

(** [resolve] goes through its two branches and touches nothing. *)
Lemma resolve_run r protocol flags default_service s :
  resolve r protocol flags default_service s =
  (match m_port (this s) with
   | Some port => Returned (make_ep (to_address (m_address (this s))) port)
   | None =>
       match lexical_cast_uint16 default_service with
       | Some port =>
           Returned (make_ep (to_address (m_address (this s))) port)
       | None => Raised bad_lexical_cast
       end
   end, s).
Proof.
  unfold resolve, bind, get_this, lexical_cast_port.
  destruct (m_port (this s)) as [port|]; [reflexivity|].
  destruct (lexical_cast_uint16 default_service); reflexivity.
Qed.

(** [async_resolve] is [resolve], then one call of the handler. *)
Lemma async_resolve_run r protocol flags default_service handler s :
  async_resolve r protocol flags default_service handler s =
  match resolve r protocol flags default_service s with
  | (Returned ep, s') =>
      invoke handler error_code_default
             (iterator_create ep (address_to_string (ep_address ep))
                              (lexical_cast_string (ep_port ep))) s'
  | (Raised x, s') => (Raised x, s')
  end.
Proof. reflexivity. Qed.

(** A call of the handler leaves the object, the resolver's queries and
    the completions outstanding as they are. *)
Lemma invoke_frame handler ec it s :
  this (snd (invoke handler ec it s)) = this s /\
  issued (env (snd (invoke handler ec it s))) = issued (env s) /\
  outstanding (env (snd (invoke handler ec it s))) = outstanding (env s).
Proof.
  unfold invoke. destruct (handler ec it (caller (env s))); auto.
Qed.

Lemma invoke_effect handler ec it s :
  (fst (invoke (T:=ip_endpoint A) handler ec it s),
   caller (env (snd (invoke handler ec it s)))) =
  handler ec it (caller (env s)).
Proof.
  unfold invoke. destruct (handler ec it (caller (env s))); reflexivity.
Qed.

(** Neither member function assigns to a member of the object. *)
Lemma resolve_this r protocol flags default_service s :
  this (snd (resolve r protocol flags default_service s)) = this s.
Proof. now rewrite resolve_run. Qed.

Lemma async_resolve_this r protocol flags default_service handler s :
  this (snd (async_resolve r protocol flags default_service handler s)) =
  this s.
Proof.
  rewrite async_resolve_run, resolve_run.
  destruct (m_port (this s));
    [|destruct (lexical_cast_uint16 default_service)];
    try apply invoke_frame.
  reflexivity.
Qed.

(** C1. A literal endpoint built with the explicit port [P] resolves to
    (address, [P]) whatever the default service is and whatever
    [lexical_cast] would make of it; the outcome is never a failure, and
    the store comes back as it was: no query has been issued to the
    resolver. *)
Theorem resolve_explicit_port (a : A) (P : uint16_t) r protocol flags
        default_service w :
  resolve r protocol flags default_service
          (make_store (make_ip_endpoint a (Some P)) w) =
  (Returned (make_ep (to_address a) P),
   make_store (make_ip_endpoint a (Some P)) w).
Proof. apply resolve_run. Qed.

(** Without a port, the result is that of the conversion, whatever the
    library makes of it. *)
Lemma resolve_without_port (a : A) r protocol flags default_service w :
  resolve r protocol flags default_service
          (make_store (make_ip_endpoint a None) w) =
  (match lexical_cast_uint16 default_service with
   | Some port => Returned (make_ep (to_address a) port)
   | None => Raised InvalidServiceFormat
   end,
   make_store (make_ip_endpoint a None) w).
Proof. rewrite resolve_run. reflexivity. Qed.

(** C9. The result of [resolve] on a literal endpoint is a function of the
    endpoint and of the default service: the resolver, the protocol, the
    flags and the state of the world have no part in it. *)
Theorem resolve_ignores_resolver_protocol_flags
        self default_service r1 r2 protocol1 protocol2 flags1 flags2 w1 w2 :
  fst (resolve r1 protocol1 flags1 default_service (make_store self w1)) =
  fst (resolve r2 protocol2 flags2 default_service (make_store self w2)).
Proof. now rewrite !resolve_run. Qed.

(** C10. Whenever [async_resolve] of a literal endpoint calls the handler,
    it is with the default-constructed, successful [error_code]; when the
    endpoint has no port and the default service does not convert,
    [bad_lexical_cast] comes out of [async_resolve] and the handler has
    not been called: the store is the one before the call. *)
Theorem async_resolve_handler_success_only self r protocol flags
        default_service handler w :
  async_resolve r protocol flags default_service handler (make_store self w) =
  match m_port self, lexical_cast_uint16 default_service with
  | Some port, _ | None, Some port =>
      let ep := make_ep (to_address (m_address self)) port in
      invoke handler error_code_default
             (iterator_create ep (address_to_string (ep_address ep))
                              (lexical_cast_string (ep_port ep)))
             (make_store self w)
  | None, None => (Raised bad_lexical_cast, make_store self w)
  end.
Proof.
  rewrite async_resolve_run, resolve_run. cbn [this].
  destruct (m_port self) as [port|]; [reflexivity|].
  destruct (lexical_cast_uint16 default_service); reflexivity.
Qed.

(** C6. When [resolve] succeeds on a literal endpoint, [async_resolve]
    calls the handler, once, with success and a sequence of one entry: the
    Transport Endpoint [resolve] returns, the rendering of its address and
    the decimal rendering of its port.  The outcome of [async_resolve] and
    the state it leaves to the caller are those of that call. *)
Theorem async_resolve_delivers_resolved_entry r protocol flags
        default_service handler s (ep : ep_type) :
  fst (resolve r protocol flags default_service s) = Returned ep ->
  let done := async_resolve r protocol flags default_service handler s in
  (fst done, caller (env (snd done))) =
  handler error_code_default
          [make_entry ep (address_to_string (ep_address ep))
                      (lexical_cast_string (ep_port ep))]
          (caller (env s)).
Proof.
  intros Hresolve. cbv zeta. rewrite async_resolve_run.
  rewrite resolve_run in Hresolve |- *. cbn [fst] in Hresolve.
  rewrite Hresolve. apply invoke_effect.
Qed.

(** C7. [async_resolve] of a literal endpoint does its work in place: when
    it comes back, nothing has been added to what the resolver was asked
    or has outstanding, and the call of the handler, when [resolve]
    succeeded, has already taken place: the outcome and the caller's state
    are those the handler leaves. *)
Theorem async_resolve_completes_in_place r protocol flags default_service
        handler s :
  let done := async_resolve r protocol flags default_service handler s in
  outstanding (env (snd done)) = outstanding (env s) /\
  issued (env (snd done)) = issued (env s) /\
  match fst (resolve r protocol flags default_service s) with
  | Returned ep =>
      (fst done, caller (env (snd done))) =
      handler error_code_default
              (iterator_create ep (address_to_string (ep_address ep))
                               (lexical_cast_string (ep_port ep)))
              (caller (env s))
  | Raised x => fst done = Raised x /\ caller (env (snd done)) = caller (env s)
  end.
Proof.
  cbv zeta. rewrite async_resolve_run, resolve_run. cbn [fst].
  destruct (m_port (this s)) as [port|];
    [|destruct (lexical_cast_uint16 default_service) as [port|]];
    cbn [fst snd]; repeat split; try apply invoke_frame; apply invoke_effect.
Qed.

End IpEndpointFacts.

(** C2, as the code has it. A literal endpoint without a port converts the
    default service with [boost::lexical_cast<uint16_t>]: an optional
    ['+'] or ['-'] and one decimal digit or more, of a value of 65535 at
    most.  It resolves to (address, value), and to (address, 65536 - value
    modulo 65536) after a ['-']; on any other default service it fails
    with [InvalidServiceFormat].  The port is a [uint16_t], and there is no
    other failure. *)
Theorem resolve_default_service {caller_state A : Type}
        {address_type : AddressType A}
        (to_string6 : address_v6 -> string) (a : A) (r : resolver)
        (protocol : protocol_type) (flags : flags_type)
        (default_service : base_service_type) (w : world caller_state) :
  let done :=
    resolve (lib := make_library lexical_cast_uint16_boost to_string6)
            r protocol flags default_service
            (make_store (make_ip_endpoint a None) w) in
  done =
  (match signed_decimal default_service with
   | Some (minus, value) =>
       if value <=? 65535 then
         Returned (make_ep (to_address a)
                           (if minus then (65536 - value) mod 65536
                            else value))
       else Raised InvalidServiceFormat
   | None => Raised InvalidServiceFormat
   end,
   make_store (make_ip_endpoint a None) w) /\
  match fst done with
  | Returned ep => is_uint16 (ep_port ep)
  | Raised x => x = InvalidServiceFormat
  end.
Proof.
  cbv zeta. rewrite resolve_without_port. cbn [lexical_cast_uint16 fst].
  pose proof (lexical_cast_uint16_boost_range default_service) as Hrange.
  rewrite lexical_cast_uint16_boost_signed_decimal in Hrange |- *.
  destruct (signed_decimal default_service) as [[minus value]|];
    [|split; reflexivity].
  destruct (value <=? 65535); [|split; reflexivity].
  split; [reflexivity|]. now apply Hrange.
Qed.

(** ** [hostname_endpoint] *)

Section HostnameEndpointFacts.

Context {caller_state : Type}.

Implicit Types (self : hostname_endpoint) (r : resolver).
Implicit Types (w : world caller_state) (handler : handler_type caller_state).

(** What the name service says of a query, as the synchronous path takes
    it. *)
Lemma hostname_resolve_run r protocol flags default_service self w :
  hostname_resolve r protocol flags default_service (make_store self w) =
  let q := hostname_query self protocol flags default_service in
  (yield (name_service r q),
   make_store self (make_world (issued w ++ [q]) (outstanding w) (caller w))).
Proof.
  unfold hostname_resolve, bind, get_this, resolver_resolve, yield. cbn.
  destruct (name_service r _) as [ec it].
  destruct (is_success ec); [|reflexivity].
  destruct it; reflexivity.
Qed.

(** The asynchronous path leaves one completion outstanding: the handler
    applied to what the name service says. *)
Lemma hostname_async_resolve_run r protocol flags default_service handler
      self w :
  hostname_async_resolve r protocol flags default_service handler
                         (make_store self w) =
  let q := hostname_query self protocol flags default_service in
  let ec := fst (name_service r q) in
  let it := snd (name_service r q) in
  (Returned tt,
   make_store self
     (make_world (issued w ++ [q])
                 (outstanding w
                  ++ [handler ec (if is_success ec then it else [])])
                 (caller w))).
Proof.
  unfold hostname_async_resolve, bind, get_this, resolver_async_resolve. cbn.
  destruct (name_service r _) as [ec it]. reflexivity.
Qed.

Lemma hostname_resolve_this r protocol flags default_service self w :
  this (snd (hostname_resolve r protocol flags default_service
                              (make_store self w))) = self.
Proof. now rewrite hostname_resolve_run. Qed.

Lemma hostname_async_resolve_this r protocol flags default_service handler
      self w :
  this (snd (hostname_async_resolve r protocol flags default_service handler
                                    (make_store self w))) = self.
Proof. now rewrite hostname_async_resolve_run. Qed.

(** C5. [resolve] of a hostname endpoint hands its query to the resolver
    (the query is the one more the resolver has been asked) and returns
    the first candidate in the resolver's order; it fails with
    [EmptyResult] when the resolver returns no candidate, and with the
    resolver's failure when the resolver fails. *)
Theorem hostname_resolve_first_candidate r protocol flags default_service
        self w :
  hostname_resolve r protocol flags default_service (make_store self w) =
  let q := hostname_query self protocol flags default_service in
  (match name_service r q with
   | (ec, candidates) =>
       if is_success ec then
         match candidates with
         | first :: _ => Returned (entry_endpoint first)
         | [] => Raised EmptyResult
         end
       else Raised (ResolutionFailure ec)
   end,
   make_store self (make_world (issued w ++ [q]) (outstanding w) (caller w))).
Proof. apply hostname_resolve_run. Qed.

End HostnameEndpointFacts.

(** The hostname endpoint of the specification's example: the resolver is
    asked for the default service, and an empty answer is [EmptyResult]. *)
Example hostname_resolve_example_org :
  hostname_resolve (constant_resolver []) udp_v4 0 "1234"
    (make_store (make_hostname_endpoint "example.org" None) fresh) =
  (Raised EmptyResult,
   make_store (make_hostname_endpoint "example.org" None)
              (make_world [make_query udp_v4 "example.org" "1234" 0] [] [])).
Proof. reflexivity. Qed.

(** ** [endpoint] *)

Section EndpointFacts.

Context {lib : Library}.

Implicit Types (e : endpoint) (r : resolver) (protocol : protocol_type).
Implicit Types (flags : flags_type) (default_service : base_service_type).

(** A virtual call leaves in the store the object the member function
    leaves. *)
Lemma member_this {caller_state T A} (up : T -> endpoint) (obj : T)
      (m : M caller_state T A) (s : store caller_state endpoint) :
  this (snd (member up obj m s)) =
  up (this (snd (m (make_store obj (env s))))).
Proof. unfold member. now destruct (m _). Qed.

(** Unfolds a virtual call down to the member function of the class of the
    object, and runs the member functions of a literal endpoint. *)
Ltac run_virtual_call :=
  unfold observe_resolve, observe_async_resolve,
    endpoint_resolve, endpoint_async_resolve, member;
  cbn [this env];
  rewrite ?async_resolve_run, ?resolve_run,
    ?hostname_async_resolve_run, ?hostname_resolve_run;
  cbn [this env].

(** The two branches of a literal endpoint. *)
Ltac literal_cases port default_service :=
  destruct port as [?|];
  [|destruct (lexical_cast_uint16 default_service) as [?|]].

(** C3. On the same endpoint and with the same arguments, [resolve] and
    [async_resolve] give the same Transport Endpoint or the same failure:
    either [async_resolve] raises, without a call of the handler, the
    failure [resolve] raises, or the handler is called once, and what it
    is called with gives what [resolve] gives. *)
Theorem resolve_async_resolve_agree e r protocol flags default_service :
  let sync := observe_resolve e r protocol flags default_service in
  let async := observe_async_resolve e r protocol flags default_service in
  match raised async, delivered async with
  | Some x, [] => sync = Raised x
  | None, [d] => yield d = sync
  | _, _ => False
  end.
Proof.
  destruct e as [[a port]|[a port]|self]; run_virtual_call.
  - literal_cases port default_service; reflexivity.
  - literal_cases port default_service; reflexivity.
  - cbv zeta. cbn [fst snd env].
    destruct (name_service r _) as [ec it]. cbn.
    destruct (is_success ec); reflexivity.
Qed.

(** C4, as the code has it.  [async_resolve] calls the handler at most
    once.  On a literal endpoint on which [resolve] succeeds, it calls it
    once and in place, with success and the one entry of the Transport
    Endpoint; when [resolve] fails, the default service not converting to
    a port, the handler is not called, nothing changes, and
    [async_resolve] raises the failure.  On a hostname endpoint
    [async_resolve] does not call the handler itself: it leaves one
    completion more with the resolver, the call of the handler with the
    candidates of the resolver or with its failure, which the event loop
    runs once.  This for every handler and every world; and what a
    recording handler sees from a fresh world, the event loop once run,
    is that one call, or none. *)
Theorem async_resolve_completion_count {caller_state : Type} e r protocol
        flags default_service (handler : handler_type caller_state)
        (w : world caller_state) :
  let done :=
    endpoint_async_resolve r protocol flags default_service handler
                           (make_store e w) in
  let async := observe_async_resolve e r protocol flags default_service in
  match e with
  | of_hostname self =>
      let answer :=
        name_service
          r (hostname_query self protocol flags default_service) in
      let it := if is_success (fst answer) then snd answer else [] in
      fst done = Returned tt /\
      caller (env (snd done)) = caller w /\
      outstanding (env (snd done)) =
        (outstanding w ++ [handler (fst answer) it])%list /\
      async = make_async_observation None [] [(fst answer, it)]
  | _ =>
      match fst (endpoint_resolve r protocol flags default_service
                                  (make_store e w)) with
      | Returned ep =>
          let it :=
            [make_entry ep (address_to_string (ep_address ep))
                        (lexical_cast_string (ep_port ep))] in
          (fst done, caller (env (snd done))) =
            handler error_code_default it (caller w) /\
          outstanding (env (snd done)) = outstanding w /\
          async =
            make_async_observation None [(error_code_default, it)]
                                   [(error_code_default, it)]
      | Raised x =>
          fst done = Raised x /\
          env (snd done) = w /\
          async = make_async_observation (Some x) [] []
      end
  end.
Proof.
  destruct e as [[a port]|[a port]|self]; run_virtual_call.
  - literal_cases port default_service; cbn; unfold invoke; cbn;
      try destruct (handler _ _ _); cbn; auto.
  - literal_cases port default_service; cbn; unfold invoke; cbn;
      try destruct (handler _ _ _); cbn; auto.
  - cbv zeta. cbn [fst snd env this].
    destruct (name_service r _) as [ec it]. cbn. auto.
Qed.

(** C8. A resolution, synchronous or asynchronous, succeeding or failing,
    leaves the endpoint object as it was: same address and port, or same
    hostname and service. *)
Theorem resolution_keeps_endpoint {caller_state : Type} e r protocol flags
        default_service (handler : handler_type caller_state)
        (w : world caller_state) :
  this (snd (endpoint_resolve r protocol flags default_service
                              (make_store e w))) = e /\
  this (snd (endpoint_async_resolve r protocol flags default_service handler
                                    (make_store e w))) = e.
Proof.
  destruct e as [self|self|self];
    unfold endpoint_resolve, endpoint_async_resolve; cbn [this];
    rewrite !member_this; cbn [env]; split; f_equal;
    first [ apply resolve_this | apply async_resolve_this
          | apply hostname_resolve_this | apply hostname_async_resolve_this ].
Qed.

(** A literal endpoint has made all its calls of the handler when
    [async_resolve] comes back; a hostname endpoint has made none yet, and
    the event loop makes its one call. *)
Lemma delivered_at_return_or_later e r protocol flags default_service :
  let async := observe_async_resolve e r protocol flags default_service in
  match e with
  | of_hostname _ =>
      delivered_at_return async = [] /\ List.length (delivered async) = 1%nat
  | _ => delivered_at_return async = delivered async
  end.
Proof.
  destruct e as [[a port]|[a port]|self]; run_virtual_call.
  - literal_cases port default_service; reflexivity.
  - literal_cases port default_service; reflexivity.
  - cbv zeta. cbn [fst snd env].
    destruct (name_service r _) as [ec it]. split; reflexivity.
Qed.

End EndpointFacts.

(** ** The definitions at work *)

(** Without a port, the default service ["8000"] gives port 8000. *)
Example resolve_8000 :
  observe_resolve (lib := example_library)
    (of_ipv4 (literal_9_0_0_1 None)) no_resolver udp_v4 0 "8000"
  = Returned (make_ep (from_v4 address_9_0_0_1) 8000).
Proof. reflexivity. Qed.

(** Without a port, the default service ["not-a-number"] is a failure. *)
Example resolve_not_a_number :
  observe_resolve (lib := example_library)
    (of_ipv4 (literal_9_0_0_1 None)) no_resolver udp_v4 0 "not-a-number"
  = Raised InvalidServiceFormat.
Proof. reflexivity. Qed.

(** With a port, a default service that does not convert is of no
    consequence. *)
Example resolve_explicit_port_not_a_number :
  observe_resolve (lib := example_library)
    (of_ipv4 (literal_9_0_0_1 (Some 12000))) no_resolver udp_v4 0
    "not-a-number"
  = Returned (make_ep (from_v4 address_9_0_0_1) 12000).
Proof. reflexivity. Qed.

(** The round trip of the specification: 9.0.0.1 and ["5000"]. *)
Example async_resolve_5000 :
  observe_async_resolve (lib := example_library)
    (of_ipv4 (literal_9_0_0_1 None)) no_resolver udp_v4 0 "5000"
  = let d := (error_code_default,
              [make_entry (make_ep (from_v4 address_9_0_0_1) 5000)
                          "9.0.0.1" "5000"]) in
    make_async_observation None [d] [d].
Proof. reflexivity. Qed.

(** A hostname endpoint, by contrast, has not called the handler when
    [async_resolve] comes back: the event loop does. *)
Example hostname_async_resolve_is_deferred :
  observe_async_resolve (lib := example_library)
    (of_hostname (make_hostname_endpoint "example.org" None))
    no_resolver udp_v4 0 "1234"
  = make_async_observation None [] [(1, [])].
Proof. reflexivity. Qed.

(** The claim C6 at fe80::c887:eb51:aaaa:bbbb with the port 12000, with
    the recording handler: one call, with the address as [inet_ntop]
    writes it. *)
Lemma async_resolve_delivers_resolved_entry_witness :
  fst (resolve (lib := example_library) no_resolver udp_v6 0 ""
               (make_store (make_ip_endpoint address_fe80_c887 (Some 12000))
                           fresh)) =
  Returned (make_ep (from_v6 address_fe80_c887) 12000) /\
  (fst (async_resolve
          (lib := example_library) no_resolver udp_v6 0 "" recording_handler
          (make_store (make_ip_endpoint address_fe80_c887 (Some 12000))
                      fresh)),
   caller
     (env
        (snd (async_resolve
                (lib := example_library) no_resolver udp_v6 0 ""
                recording_handler
                (make_store (make_ip_endpoint address_fe80_c887 (Some 12000))
                            fresh))))) =
  (Returned tt,
   [(error_code_default,
     [make_entry (make_ep (from_v6 address_fe80_c887) 12000)
                 "fe80::c887:eb51:aaaa:bbbb" "12000"])]).
Proof.
  split; [reflexivity|].
  exact (async_resolve_delivers_resolved_entry
           (lib := example_library) no_resolver udp_v6 0 ""
           recording_handler
           (make_store (make_ip_endpoint address_fe80_c887 (Some 12000))
                       fresh)
           (ep := make_ep (from_v6 address_fe80_c887) 12000) eq_refl).
Defined.

(** The claim C2 as the specification has it fails at ["-1"], which is no
    base-10 unsigned 16-bit integer and which [lexical_cast] converts all
    the same: the endpoint resolves to the port 65535. *)
Lemma resolve_minus_one_is_a_port :
  ~ resolves_as_decimal_uint16
      (from_v4 address_9_0_0_1) "-1"
      (observe_resolve (lib := example_library)
         (of_ipv4 (literal_9_0_0_1 None)) no_resolver udp_v4 0 "-1").
Proof. unfold resolves_as_decimal_uint16. cbn. discriminate. Qed.

Example resolve_minus_one :
  observe_resolve (lib := example_library)
    (of_ipv4 (literal_9_0_0_1 None)) no_resolver udp_v4 0 "-1"
  = Returned (make_ep (from_v4 address_9_0_0_1) 65535).
Proof. reflexivity. Qed.

Example resolve_plus_80 :
  observe_resolve (lib := example_library)
    (of_ipv4 (literal_9_0_0_1 None)) no_resolver udp_v4 0 "+80"
  = Returned (make_ep (from_v4 address_9_0_0_1) 80).
Proof. reflexivity. Qed.

(** The claim C4 as the specification has it, the handler called once and
    only once on every input, fails on a literal endpoint without a port
    whose default service does not convert: the handler is not called. *)
Lemma async_resolve_not_always_once :
  ~ completes_exactly_once
      (observe_async_resolve (lib := example_library)
         (of_ipv4 (literal_9_0_0_1 None)) no_resolver udp_v4 0
         "not-a-number").
Proof. intros [Hcount _]. discriminate Hcount. Qed.

(** * The TAP test program *)

Import Tap.

(** ** The signal handler *)

Section SignalFacts.

Context {platform : Platform}.

Implicit Types (p : process) (code : Z) (codes : list Z).

Lemma signal_handler_signaled code p :
  signaled p = true -> snd (signal_handler code p) = p.
Proof.
  intros Hp. unfold signal_handler.
  destruct (stops code); [|reflexivity]. now rewrite Hp.
Qed.

Lemma signal_handler_no_stop_function code p :
  stop_function p = None -> snd (signal_handler code p) = p.
Proof.
  intros Hp. unfold signal_handler.
  destruct (stops code); [|reflexivity].
  rewrite Hp. now destruct (signaled p).
Qed.

Lemma signal_handler_stopped code p stop :
  signaled p = false -> stop_function p = Some stop ->
  snd (signal_handler code p) = if stops code then stopped stop p else p.
Proof.
  intros Hsignaled Hstop. unfold signal_handler, stopped.
  destruct (stops code); [|reflexivity].
  rewrite Hsignaled, Hstop.
  now destruct (stop _) as [[[]|e] m].
Qed.

Lemma stopped_signaled stop p : signaled (stopped stop p) = true.
Proof. unfold stopped. now destruct (stop _). Qed.

Lemma signals_signaled codes p : signaled p = true -> signals codes p = p.
Proof.
  revert p. induction codes as [|code codes IH]; intros p Hp; [reflexivity|].
  cbn. rewrite signal_handler_signaled by assumption. now apply IH.
Qed.

Lemma signals_no_stop_function codes p :
  stop_function p = None -> signals codes p = p.
Proof.
  revert p. induction codes as [|code codes IH]; intros p Hp; [reflexivity|].
  cbn. rewrite signal_handler_no_stop_function by assumption. now apply IH.
Qed.

(** The first signal that stops the program stops it, and the later ones
    find it signaled. *)
Lemma signals_stopped codes p stop :
  signaled p = false -> stop_function p = Some stop ->
  signals codes p = if existsb stops codes then stopped stop p else p.
Proof.
  revert p.
  induction codes as [|code codes IH]; intros p Hsignaled Hstop;
    [reflexivity|].
  change (signals (code :: codes) p)
    with (signals codes (snd (signal_handler code p))).
  rewrite (signal_handler_stopped code p Hsignaled Hstop). cbn [existsb].
  destruct (stops code); cbn [orb].
  - apply signals_signaled, stopped_signaled.
  - now apply IH.
Qed.

(** X1. Whatever signals a process gets, and however many, its stop
    function is run at most once: it is run once, at the first signal among
    SIGTERM, SIGINT and SIGABRT, if the process has not been signaled and
    has a stop function, and the process is left as it was otherwise. *)
Theorem signals_stop_once codes p :
  signals codes p =
  match signaled p, stop_function p with
  | false, Some stop => if existsb stops codes then stopped stop p else p
  | _, _ => p
  end.
Proof.
  destruct (signaled p) eqn:Hsignaled; [now apply signals_signaled|].
  destruct (stop_function p) as [stop|] eqn:Hstop;
    [|now apply signals_no_stop_function].
  now apply signals_stopped.
Qed.

(** X2. The signals a process gets while it has no stop function are
    lost without a trace: once the stop function is set, the signals that
    follow do what they would have done without the earlier ones. *)
Theorem signals_before_stop_function (early late : list Z) p (stop : Pm unit) :
  stop_function p = None ->
  signals late (set_stop_function stop (signals early p)) =
  signals late (set_stop_function stop p).
Proof.
  intros Hp. now rewrite (signals_no_stop_function early p Hp).
Qed.

(** [close_tap_adapter] on an adapter that does not throw. *)
Lemma close_tap_adapter_run (m : machine) :
  (forall made c, adapter_throws made c = None) ->
  close_tap_adapter m = (Done tt, set_calls (calls m ++ teardown) m).
Proof.
  intros Hnever. unfold close_tap_adapter, bind, tap_adapter.
  rewrite !Hnever. destruct m. cbn.
  now rewrite <- !app_assoc, !app_nil_r.
Qed.

(** X8. Once [main] has set the stop function, and with an adapter that
    does not throw, the signals that come, however many, close the adapter
    once: the adapter gets the five calls of [close_tap_adapter] once, in
    their order, the operation that was pending stays pending, and the
    stop function is gone. *)
Theorem signals_close_adapter_once codes p :
  (forall made c, adapter_throws made c = None) ->
  signaled p = false ->
  stop_function p = Some close_tap_adapter ->
  existsb stops codes = true ->
  let p' := signals codes p in
  calls (machine_of p') = (calls (machine_of p) ++ teardown)%list /\
  pending (machine_of p') = pending (machine_of p) /\
  signaled p' = true /\
  stop_function p' = None.
Proof.
  intros Hnever Hsignaled Hstop Hcodes. cbv zeta.
  rewrite (signals_stopped codes p Hsignaled Hstop), Hcodes.
  unfold stopped.
  rewrite close_tap_adapter_run by assumption. cbn. auto.
Qed.

End SignalFacts.

(** ** Registration of the signal handler *)

Section RegisterFacts.

Context {platform : Platform}.

(** X3. [register_signal_handlers] installs the handler for SIGTERM, SIGINT
    and SIGABRT in this order and stops at the first signal that cannot be
    caught, the handlers installed before staying installed; it returns
    [true] when the three are caught, printing nothing, and [false]
    otherwise, after one line on [std::cerr]; it touches nothing else. *)
Theorem register_signal_handlers_prefix (m : machine) :
  let catchable sig := negb (signal_fails sig) in
  let ok := forallb catchable [SIGTERM; SIGINT; SIGABRT] in
  let m' := snd (register_signal_handlers m) in
  fst (register_signal_handlers m) = ok /\
  handled m' =
    (handled m ++ take_while catchable [SIGTERM; SIGINT; SIGABRT])%list /\
  List.length (cerr m') =
    (List.length (cerr m) + if ok then 0 else 1)%nat /\
  set_handled (handled m) (set_cerr (cerr m) m') = m.
Proof.
  cbv zeta. unfold register_signal_handlers, signal. cbn [forallb take_while].
  destruct m as [h e o b c pd rc wr].
  destruct (signal_fails SIGTERM); cbn;
    [rewrite length_app, app_nil_r; auto|].
  destruct (signal_fails SIGINT); cbn;
    [rewrite length_app; auto|].
  destruct (signal_fails SIGABRT); cbn;
    rewrite <- ?app_assoc, ?length_app; cbn; auto.
Qed.

End RegisterFacts.

(** ** The echo loop *)

Section EchoFacts.

Context {platform : Platform}.

Implicit Types (m : machine) (ev : event) (events : list event).

(** The ARP callback only prints. *)
Lemma ethernet_filter_parse_run (buf : list byte) m :
  ethernet_filter_parse buf arp_frame_read m =
  (Done tt,
   set_cout
     (cout m
      ++ map (fun found => cout_arp_frame (sender_logical_address (fst found)))
             (arp_frames buf)) m).
Proof.
  unfold ethernet_filter_parse.
  generalize (arp_frames buf) as found. intros found. revert m.
  induction found as [|f found IH]; intros m.
  - destruct m. cbn. now rewrite app_nil_r.
  - cbn [for_each map]. unfold bind at 1.
    unfold arp_frame_read at 1, print_cout at 1.
    rewrite IH. destruct m. cbn. now rewrite <- app_assoc.
Qed.

(** [read_done], run. *)
Lemma read_done_run (ec : error_code) (cnt : N) m :
  read_done ec cnt m =
  if is_success ec then
    tap_adapter (async_write cnt)
      (set_cout
         (cout m ++ cout_read cnt ec
            :: map (fun found =>
                      cout_arp_frame (sender_logical_address (fst found)))
                   (arp_frames (buffer cnt m))) m)
  else (Done tt, set_cout (cout m ++ [cout_read cnt ec]) m).
Proof.
  unfold read_done, bind at 1, print_cout at 1.
  destruct (is_success ec); [|reflexivity].
  unfold bind at 1, get. unfold bind at 1.
  rewrite ethernet_filter_parse_run.
  destruct m. cbn. now rewrite <- app_assoc.
Qed.

(** [write_done], run. *)
Lemma write_done_run (ec : error_code) (cnt : N) m :
  write_done ec cnt m =
  if is_success ec then
    tap_adapter (async_read sizeof_my_buf)
                (set_cout (cout m ++ [cout_write cnt ec]) m)
  else (Done tt, set_cout (cout m ++ [cout_write cnt ec]) m).
Proof.
  unfold write_done, bind, print_cout. now destruct (is_success ec).
Qed.

(** A frame put at the start of the buffer is what a buffer of its size
    holds. *)
Lemma firstn_stored (frame rest : list byte) :
  firstn (N.to_nat (N.of_nat (List.length frame))) (frame ++ rest) = frame.
Proof.
  rewrite Nnat.Nat2N.id, firstn_app, Nat.sub_diag, firstn_all. cbn.
  apply app_nil_r.
Qed.

(** A completion keeps the loop in one of its phases. *)
Lemma complete_phase ev m : phase m -> phase (snd (complete ev m)).
Proof.
  intros [Hpending Hsync|cnt frame Hpending Hlate Hbuf|tail Hpending Hlate Hle];
    unfold complete; rewrite Hpending.
  - destruct (is_success (fst ev)) eqn:Hec.
    + rewrite read_done_run, Hec. unfold tap_adapter.
      destruct (adapter_throws _ _) as [thrown|]; cbn [snd].
      * apply idle
          with (unwritten := [firstn (N.to_nat sizeof_my_buf) (snd ev)]);
          cbn; [reflexivity|now rewrite Hsync|auto].
      * eapply writing; cbn; [reflexivity|now rewrite Hsync|].
        unfold buffer. cbn. apply firstn_stored.
    + rewrite read_done_run, Hec. cbn [snd].
      apply idle with (unwritten := []); cbn; [reflexivity| |auto].
      now rewrite app_nil_r.
  - destruct (is_success (fst ev)) eqn:Hec.
    + rewrite write_done_run, Hec. unfold tap_adapter.
      destruct (adapter_throws _ _) as [thrown|]; cbn [snd].
      * apply idle with (unwritten := []); cbn; [reflexivity| |auto].
        rewrite app_nil_r, Hlate. now rewrite Hbuf.
      * apply reading; cbn; [reflexivity|].
        rewrite Hlate. now rewrite Hbuf.
    + rewrite write_done_run, Hec. cbn [snd].
      apply idle with (unwritten := [frame]); cbn; auto.
  - cbn [snd]. now apply idle with (unwritten := tail).
Qed.

Lemma io_service_run_phase events m :
  phase m -> phase (snd (io_service_run events m)).
Proof.
  revert m. induction events as [|ev events IH]; intros m Hm.
  - cbn. now destruct (pending m).
  - cbn. destruct (pending m) eqn:Hpending; [assumption|].
    pose proof (complete_phase ev Hm) as Hnext.
    destruct (complete ev m) as [[[]|e] m']; cbn [snd] in *; auto.
Qed.

(** X9. When a read completes with success, the filters are given the
    frame just read and nothing else: the program prints the line of the
    read, then one line for each ARP frame found in the bytes read,
    whatever [my_buf] still holds of earlier and longer frames. *)
Theorem read_completion_parses_frame ev m (size : N)
        (rest : list operation) :
  pending m = read_operation size :: rest ->
  is_success (fst ev) = true ->
  let frame := firstn (N.to_nat size) (snd ev) in
  cout (snd (complete ev m)) =
  (cout m ++ cout_read (N.of_nat (List.length frame)) (fst ev)
     :: map (fun found => cout_arp_frame (sender_logical_address (fst found)))
            (arp_frames frame))%list.
Proof.
  intros Hpending Hec. cbv zeta. unfold complete.
  rewrite Hpending, Hec, read_done_run, Hec.
  unfold tap_adapter, buffer. cbn [my_buf set_cout set_received set_my_buf].
  rewrite firstn_stored.
  now destruct (adapter_throws _ _).
Qed.

End EchoFacts.

(** ** [main] *)

Section MainFacts.

Context {platform : Platform}.

Implicit Types (m : machine) (p : process) (events : list event).

(** A phase is a matter of the pending operations, the frames and the
    buffer. *)
Lemma phase_frame m m' :
  pending m' = pending m -> received m' = received m -> wire m' = wire m ->
  my_buf m' = my_buf m -> phase m -> phase m'.
Proof.
  intros Hp Hr Hw Hb
    [Hpending Hsync|cnt frame Hpending Hlate Hbuf|tail Hpending Hlate Hle].
  - apply reading; congruence.
  - apply writing with (cnt := cnt) (frame := frame); try congruence.
    unfold buffer in *. congruence.
  - apply idle with (unwritten := tail); congruence.
Qed.

(** Registration is a matter of the handlers and of [std::cerr]. *)
Lemma register_signal_handlers_frame m :
  let m' := snd (register_signal_handlers m) in
  pending m' = pending m /\ received m' = received m /\ wire m' = wire m /\
  my_buf m' = my_buf m /\ calls m' = calls m.
Proof.
  cbv zeta. unfold register_signal_handlers, signal.
  destruct (signal_fails SIGTERM); cbn; auto.
  destruct (signal_fails SIGINT); cbn; auto.
  destruct (signal_fails SIGABRT); cbn; auto.
Qed.

Lemma register_signal_handlers_ok m :
  fst (register_signal_handlers m) =
  forallb catchable [SIGTERM; SIGINT; SIGABRT].
Proof.
  unfold register_signal_handlers, signal, catchable. cbn [forallb].
  destruct (signal_fails SIGTERM); cbn; auto.
  destruct (signal_fails SIGINT); cbn; auto.
  destruct (signal_fails SIGABRT); cbn; auto.
Qed.

(** After the calls of [main] to the adapter, a read is pending, or
    nothing when one of the calls has thrown. *)
Lemma setup_phase m :
  pending m = [] -> received m = wire m -> phase (snd (setup m)).
Proof.
  intros Hpending Hsync. unfold setup, bind, tap_adapter.
  repeat (destruct (adapter_throws _ _); cbn [snd started];
          [apply idle with (unwritten := []); cbn;
           rewrite ?app_nil_r; auto|]).
  apply reading; cbn; [now rewrite Hpending|assumption].
Qed.

Lemma main_phase events p :
  pending (machine_of p) = [] ->
  received (machine_of p) = wire (machine_of p) ->
  phase (machine_of (snd (main events p))).
Proof.
  intros Hpending Hsync. unfold main.
  destruct (register_signal_handlers_frame (machine_of p))
    as (Hp & Hr & Hw & _).
  destruct (register_signal_handlers (machine_of p)) as [ok m].
  cbn [snd] in Hp, Hr, Hw.
  destruct ok; cbn [negb].
  - assert (Hsetup : phase (snd (setup m)))
      by (apply setup_phase; congruence).
    destruct (setup m) as [[[]|e] m1]; cbn [snd] in Hsetup.
    + pose proof (io_service_run_phase events Hsetup) as Hrun.
      destruct (io_service_run events m1) as [[[[]|e]|] m2];
        cbn [snd machine_of] in *; try assumption.
      revert Hrun. now apply phase_frame.
    + cbn [snd machine_of]. revert Hsetup. now apply phase_frame.
  - cbn [snd machine_of].
    apply idle with (unwritten := []); rewrite ?app_nil_r; auto; congruence.
Qed.

(** X4. From its start and whatever the platform and the events, [main]
    never has more than one operation pending on the adapter: the one
    buffer [my_buf] is never given to a second read or write while a first
    one is pending. *)
Theorem main_one_pending_operation events :
  (List.length (pending (machine_of (snd (main events initial_process))))
   <= 1)%nat.
Proof.
  destruct (main_phase events initial_process eq_refl eq_refl)
    as [Hpending _|cnt frame Hpending _ _|tail Hpending _ _];
    rewrite Hpending; cbn; auto.
Qed.

(** X5. The program echoes: at any point of a run of [main], the frames the
    adapter has written out are the frames it has read in, in the same
    order and byte for byte, but for the last frame read at most, which is
    yet to be written or was given up after a failure. *)
Theorem main_echoes events :
  let m := machine_of (snd (main events initial_process)) in
  exists unwritten,
    received m = (wire m ++ unwritten)%list /\
    (List.length unwritten <= 1)%nat.
Proof.
  cbv zeta.
  destruct (main_phase events initial_process eq_refl eq_refl)
    as [_ Hsync|cnt frame _ Hlate _|tail _ Hlate Hle].
  - exists []. rewrite app_nil_r. auto.
  - exists [frame]. auto.
  - exists tail. auto.
Qed.

(** With an adapter that never throws, a completion that succeeds leaves
    one operation pending, and one that fails leaves none. *)
Lemma complete_one_pending (ev : event) m :
  (forall made c, adapter_throws made c = None) ->
  List.length (pending m) = 1%nat ->
  fst (complete ev m) = Done tt /\
  List.length (pending (snd (complete ev m))) =
    if is_success (fst ev) then 1%nat else 0%nat.
Proof.
  intros Hnever Hone. unfold complete.
  destruct (pending m) as [|[size|size] [|]]; try discriminate;
    destruct (is_success (fst ev)) eqn:Hec;
    rewrite ?read_done_run, ?write_done_run, ?Hec;
    unfold tap_adapter; rewrite ?Hnever; cbn; auto.
Qed.

Lemma io_service_run_one_pending events m :
  (forall made c, adapter_throws made c = None) ->
  List.length (pending m) = 1%nat ->
  fst (io_service_run events m) =
  if forallb (fun ev => is_success (fst ev)) events then None
  else Some (Done tt).
Proof.
  intros Hnever. revert m.
  induction events as [|ev events IH]; intros m Hone;
    cbn [io_service_run forallb];
    destruct (pending m) as [|op rest] eqn:Hpending; try discriminate;
    [reflexivity|].
  destruct (complete_one_pending ev m Hnever) as [Hdone Hnext];
    [now rewrite Hpending|].
  destruct (complete ev m) as [r m']. cbn [fst snd] in Hdone, Hnext.
  subst r. destruct (is_success (fst ev)); cbn [andb].
  - now apply IH.
  - destruct events; cbn [io_service_run];
      destruct (pending m'); try discriminate; reflexivity.
Qed.

Lemma setup_one_pending m :
  (forall made c, adapter_throws made c = None) ->
  pending m = [] ->
  fst (setup m) = Done tt /\ List.length (pending (snd (setup m))) = 1%nat.
Proof.
  intros Hnever Hpending. unfold setup, bind, tap_adapter.
  rewrite !Hnever. cbn. now rewrite Hpending.
Qed.

(** X6. Where the three signals can be caught and the adapter never throws,
    [main] ends when a completion reports an error and not before, and it
    ends with EXIT_SUCCESS: as long as the reads and the writes succeed,
    it runs on. *)
Theorem main_ends_on_failure events :
  forallb catchable [SIGTERM; SIGINT; SIGABRT] = true ->
  (forall made c, adapter_throws made c = None) ->
  fst (main events initial_process) =
  if forallb (fun ev => is_success (fst ev)) events then None
  else Some EXIT_SUCCESS.
Proof.
  intros Hcaught Hnever. unfold main.
  pose proof (register_signal_handlers_ok (machine_of initial_process)) as Hok.
  destruct (register_signal_handlers_frame (machine_of initial_process))
    as (Hp & _).
  destruct (register_signal_handlers (machine_of initial_process)) as [ok m].
  cbn [fst snd] in Hok, Hp. rewrite Hcaught in Hok. subst ok. cbn [negb].
  destruct (setup_one_pending m Hnever Hp) as [Hdone Hone].
  destruct (setup m) as [r m1]. cbn [fst snd] in Hdone, Hone. subst r.
  pose proof (io_service_run_one_pending events m1 Hnever Hone) as Hrun.
  destruct (io_service_run events m1) as [r m2]. cbn [fst] in Hrun. subst r.
  now destruct (forallb (fun ev => is_success (fst ev)) events).
Qed.

(** X7. When one of the three signals cannot be caught, [main] gives up at
    once with EXIT_FAILURE: it makes no call to the adapter, starts no
    operation, and leaves [signaled] and [stop_function] as they were. *)
Theorem main_registration_failure events p :
  forallb catchable [SIGTERM; SIGINT; SIGABRT] = false ->
  let p' := snd (main events p) in
  fst (main events p) = Some EXIT_FAILURE /\
  calls (machine_of p') = calls (machine_of p) /\
  pending (machine_of p') = pending (machine_of p) /\
  signaled p' = signaled p /\
  stop_function p' = stop_function p.
Proof.
  intros Hdeaf. cbv zeta. unfold main.
  pose proof (register_signal_handlers_ok (machine_of p)) as Hok.
  destruct (register_signal_handlers_frame (machine_of p))
    as (Hp & _ & _ & _ & Hc).
  destruct (register_signal_handlers (machine_of p)) as [ok m].
  cbn [fst snd] in Hok, Hp, Hc. rewrite Hdeaf in Hok. subst ok.
  cbn. auto.
Qed.

End MainFacts.

(** ** The program at work *)

(** X2 on the program at its start: a SIGTERM before the stop function is
    set, a SIGINT after. *)
Lemma signals_before_stop_function_witness :
  stop_function initial_process = None /\
  signals (platform := example_platform) [2%Z]
          (set_stop_function (close_tap_adapter (platform := example_platform))
             (signals (platform := example_platform) [15%Z] initial_process)) =
  signals (platform := example_platform) [2%Z]
          (set_stop_function (close_tap_adapter (platform := example_platform))
                             initial_process).
Proof.
  split; [reflexivity|].
  apply (signals_before_stop_function
           (platform := example_platform) [15%Z] [2%Z] initial_process
           (close_tap_adapter (platform := example_platform))).
  reflexivity.
Defined.

(** X6 on two frames and a failure. *)
Lemma main_ends_on_failure_witness :
  fst (main (platform := example_platform) two_frames_then_failure
            initial_process) = Some EXIT_SUCCESS.
Proof.
  apply (main_ends_on_failure
           (platform := example_platform) two_frames_then_failure);
    [reflexivity|intros made c; reflexivity].
Defined.

(** X7 where SIGABRT cannot be caught. *)
Lemma main_registration_failure_witness :
  fst (main (platform := deaf_platform) two_frames_then_failure
            initial_process) = Some EXIT_FAILURE /\
  calls (machine_of (snd (main (platform := deaf_platform)
                               two_frames_then_failure initial_process))) = [].
Proof.
  pose proof (main_registration_failure
                (platform := deaf_platform) two_frames_then_failure
                initial_process eq_refl) as (Hexit & Hcalls & _).
  split; [exact Hexit|exact Hcalls].
Defined.

(** X8 on the program after its first read: SIGHUP, SIGINT, SIGTERM. *)
Lemma signals_close_adapter_once_witness :
  calls (machine_of (signals (platform := example_platform)
                             [1%Z; 2%Z; 15%Z] after_first_read)) =
  (calls (machine_of after_first_read) ++ teardown)%list.
Proof.
  refine (proj1 (signals_close_adapter_once
                   (platform := example_platform) [1%Z; 2%Z; 15%Z]
                   after_first_read
                   (fun made c => eq_refl) eq_refl eq_refl eq_refl)).
Defined.

(** X9 on the first read of the program. *)
Lemma read_completion_parses_frame_witness :
  cout (snd (complete (platform := example_platform) (0, [x01; x02]%byte)
                      (snd (setup (platform := example_platform)
                                  initial_machine)))) =
  [cout_read 2 0].
Proof.
  apply (read_completion_parses_frame
           (platform := example_platform) (0, [x01; x02]%byte)
           (snd (setup (platform := example_platform) initial_machine))
           (size := sizeof_my_buf) (rest := []));
    reflexivity.
Defined.
